(** * VideoDownloader: the offline-download component of kino

    A shallow embedding of [src/js/components/VideoDownloader.js]: the
    aggregate progress computation [getProgress], the resume merge done by
    [init], the reflected [progress] attribute and [setDownloadState].

    JavaScript numbers are modelled as exact rationals extended with the two
    infinities and NaN: the arithmetic is IEEE-754 arithmetic without
    rounding and without a signed zero.  Byte counts are integers.  The
    statements on this model are about order, bounds and truthiness.  The
    values the reduction of [getProgress] computes are binary64 numbers,
    rounded at every operation: module [Binary64] is that reduction on the
    primitive floats. *)

From Stdlib Require Import QArith Lia Lqa Ascii String HexString.
From Stdlib Require Import ZArith Floats Uint63 Bool.
From stdpp Require Import gmap strings list.

(** ** JavaScript numbers *)

Module JS.

Inductive number : Type :=
| Num (q : Q)
| PosInf
| NegInf
| NaN.

Definition of_Z (z : Z) : number := Num (inject_Z z).
Definition of_nat (n : nat) : number := of_Z (Z.of_nat n).

(** Value equality of numbers ([Q] has several representations of one
    rational). NaN is related to itself: this is the identity of results,
    not the [===] operator. *)
Definition equiv (x y : number) : Prop :=
  match x, y with
  | Num a, Num b => (a == b)%Q
  | PosInf, PosInf | NegInf, NegInf | NaN, NaN => True
  | _, _ => False
  end.

(** [x + y] *)
Definition add (x y : number) : number :=
  match x, y with
  | NaN, _ | _, NaN => NaN
  | PosInf, NegInf | NegInf, PosInf => NaN
  | PosInf, _ | _, PosInf => PosInf
  | NegInf, _ | _, NegInf => NegInf
  | Num a, Num b => Num (a + b)
  end.

(** The sign of an infinity after multiplication or division by [q];
    [zero] is the result when [q] is zero. *)
Definition signed (inf : bool) (q : Q) (zero : number) : number :=
  match (q ?= 0)%Q with
  | Eq => zero
  | Gt => if inf then PosInf else NegInf
  | Lt => if inf then NegInf else PosInf
  end.

(** [x * y] *)
Definition mul (x y : number) : number :=
  match x, y with
  | NaN, _ | _, NaN => NaN
  | Num a, Num b => Num (a * b)
  | PosInf, Num q | Num q, PosInf => signed true q NaN
  | NegInf, Num q | Num q, NegInf => signed false q NaN
  | PosInf, PosInf | NegInf, NegInf => PosInf
  | PosInf, NegInf | NegInf, PosInf => NegInf
  end.

(** [x / y] *)
Definition div (x y : number) : number :=
  match x, y with
  | NaN, _ | _, NaN => NaN
  | Num a, Num b =>
      match (b ?= 0)%Q with
      | Eq => signed true a NaN
      | _ => Num (a / b)
      end
  | Num _, (PosInf | NegInf) => Num 0
  | PosInf, Num b => signed true b PosInf
  | NegInf, Num b => signed false b NegInf
  | (PosInf | NegInf), (PosInf | NegInf) => NaN
  end.

(** [Math.min(x, y)] *)
Definition min (x y : number) : number :=
  match x, y with
  | NaN, _ | _, NaN => NaN
  | NegInf, _ | _, NegInf => NegInf
  | PosInf, z | z, PosInf => z
  | Num a, Num b => Num (if Qle_bool a b then a else b)
  end.

(** [Math.max(x, y)] *)
Definition max (x y : number) : number :=
  match x, y with
  | NaN, _ | _, NaN => NaN
  | PosInf, _ | _, PosInf => PosInf
  | NegInf, z | z, NegInf => z
  | Num a, Num b => Num (if Qle_bool a b then b else a)
  end.

(** [x <= y] *)
Definition leb (x y : number) : bool :=
  match x, y with
  | NaN, _ | _, NaN => false
  | NegInf, _ | _, PosInf => true
  | PosInf, _ | _, NegInf => false
  | Num a, Num b => Qle_bool a b
  end.

(** ToBoolean on a number: [0] and [NaN] are falsy. *)
Definition truthy (x : number) : bool :=
  match x with
  | NaN => false
  | Num q => negb (Qeq_bool q 0)
  | PosInf | NegInf => true
  end.

End JS.

Infix "=n=" := JS.equiv (at level 70, no associativity).

(** ** FileMeta and VideoMeta *)

(** [bytesTotal] is [None] until the size of the file is known. *)
Record FileMeta : Type := mkFileMeta {
  url : string;
  bytesDownloaded : Z;
  bytesTotal : option Z;
  done : bool
}.

(** ** getProgress *)

(** ToNumber of the [bytesTotal] property: an unknown total is [undefined]. *)
Definition bytesTotal_number (fileMeta : FileMeta) : JS.number :=
  match bytesTotal fileMeta with
  | Some t => JS.of_Z t
  | None => JS.NaN
  end.

(** [!fileMeta.bytesTotal] *)
Definition not_bytesTotal (fileMeta : FileMeta) : bool :=
  match bytesTotal fileMeta with
  | Some t => (t =? 0)%Z
  | None => true
  end.

(** [1 / this.internal.files.length] *)
Definition pieceValue (files : list FileMeta) : JS.number :=
  JS.div (JS.Num 1) (JS.of_nat (length files)).

(** The callback given to [reduce]. *)
Definition reducer (pieceValue percentage : JS.number) (fileMeta : FileMeta)
  : JS.number :=
  if done fileMeta then
    JS.add percentage pieceValue
  else if (bytesDownloaded fileMeta =? 0)%Z || not_bytesTotal fileMeta then
    JS.add percentage (JS.Num 0)
  else
    let percentageOfCurrent :=
      JS.div (JS.of_Z (bytesDownloaded fileMeta)) (bytesTotal_number fileMeta) in
    JS.add percentage (JS.mul percentageOfCurrent pieceValue).

(** The value of [percentageProgress], before clamping. *)
Definition percentageProgress (files : list FileMeta) : JS.number :=
  foldl (reducer (pieceValue files)) (JS.Num 0) files.

Definition getProgress (files : list FileMeta) : JS.number :=
  JS.max (JS.Num 0) (JS.min (percentageProgress files) (JS.Num 100)).

(** ** Resume merge, done by [init] once the URLs are resolved *)

(** [dbFiles.map((fileMeta) => [fileMeta.url, fileMeta])] *)
Definition dbFilesUrlTuples (dbFiles : list FileMeta) : list (string * FileMeta) :=
  (λ fileMeta, (url fileMeta, fileMeta)) <$> dbFiles.

(** [Object.fromEntries]: the entries are added in order, so that of two
    entries with one key the later one stays.  The object is used as a map
    from URLs to records; the properties every object inherits are not URLs
    and are outside the model. *)
Definition fromEntries {V : Type} (entries : list (string * V)) : gmap string V :=
  foldl (λ obj entry, <[entry.1 := entry.2]> obj) ∅ entries.

Definition dbFilesByUrl (dbFiles : list FileMeta) : gmap string FileMeta :=
  fromEntries (dbFilesUrlTuples dbFiles).

(** [files.map((fileMeta) => (dbFilesByUrl[fileMeta.url] ? ... : fileMeta))];
    a record is an object, hence truthy. *)
Definition filesWithStateUpdatedFromDb (files dbFiles : list FileMeta)
  : list FileMeta :=
  (λ fileMeta,
     match dbFilesByUrl dbFiles !! url fileMeta with
     | Some dbFile => dbFile
     | None => fileMeta
     end) <$> files.

(** Modelled from the spec: the record the URL Resolver creates for a file it
    has not seen ([getURLsForDownload] lives in [Urls.module], which is not
    among the sources): nothing downloaded, size unknown, not done. *)
Definition freshStub (u : string) : FileMeta :=
  mkFileMeta u 0 None false.

(** ** The component *)

Module VideoMeta.
(** [done] is [None] on an object without that property, as [{}]. *)
Record t : Type := mk { done : option bool }.

Definition empty : t := mk None.

(** ToBoolean of [videoMeta.done] *)
Definition done_truthy (m : t) : bool :=
  match done m with Some true => true | _ => false end.
End VideoMeta.

(** The values assigned to the reflected attributes. *)
Inductive value : Type :=
| VNumber (x : JS.number)
| VString (s : string)
| VBoolean (b : bool)
| VUndefined
| VNull.

(** The part of the element the methods read and write: its DOM attributes,
    [this.internal.files], [this.internal.meta] (absent when the database
    has no record) and the download button.  The progress bar only receives
    the attribute value from [attributeChangedCallback] and is never read. *)
Record Component : Type := mkComponent {
  attributes : gmap string string;
  files : list FileMeta;
  meta : option VideoMeta.t;
  button_disabled : bool;
  button_innerHTML : string
}.

Definition getAttribute (name : string) (this : Component) : option string :=
  attributes this !! name.

Definition getMeta (this : Component) : VideoMeta.t :=
  match meta this with
  | Some m => m
  | None => VideoMeta.empty
  end.

Definition setMeta (m : option VideoMeta.t) (this : Component) : Component :=
  mkComponent (attributes this) (files this) m
    (button_disabled this) (button_innerHTML this).

Definition get_state (this : Component) : option string :=
  getAttribute "state" this.

Section Builtins.

(** The two conversions of the language the accessors go through:
    Number::toString and the global [parseFloat]. *)
Variable number_toString : JS.number → string.
Variable parseFloat : string → JS.number.

(** ToString *)
Definition ToString (v : value) : string :=
  match v with
  | VNumber x => number_toString x
  | VString s => s
  | VBoolean true => "true"
  | VBoolean false => "false"
  | VUndefined => "undefined"
  | VNull => "null"
  end.

(** [setAttribute] stores the string form of the value. *)
Definition setAttribute (name : string) (v : value) (this : Component)
  : Component :=
  mkComponent (<[name := ToString v]> (attributes this)) (files this)
    (meta this) (button_disabled this) (button_innerHTML this).

Definition set_state (state : string) (this : Component) : Component :=
  setAttribute "state" (VString state) this.

(** [Math.min(Math.max(0, x), 100)] *)
Definition clampedProgress (x : JS.number) : JS.number :=
  JS.min (JS.max (JS.Num 0) x) (JS.Num 100).

(** [get progress()]; a missing attribute reads as [null]. *)
Definition get_progress (this : Component) : JS.number :=
  let attribute :=
    match getAttribute "progress" this with
    | Some s => VString s
    | None => VNull
    end in
  let progress := parseFloat (ToString attribute) in
  clampedProgress progress.

(** [set progress(progress)] *)
Definition set_progress (progress : value) (this : Component) : Component :=
  let progressFloat := parseFloat (ToString progress) in
  setAttribute "progress" (VNumber (clampedProgress progressFloat)) this.

Definition setDownloadState (this : Component) : Component :=
  let this := mkComponent (attributes this) (files this) (meta this)
                false (button_innerHTML this) in
  let videoMeta := getMeta this in
  let downloadProgress := getProgress (files this) in
  if VideoMeta.done_truthy videoMeta then
    set_state "done" this
  else if JS.truthy downloadProgress then
    let this := set_state "partial" this in
    let this := set_progress (VNumber downloadProgress) this in
    mkComponent (attributes this) (files this) (meta this)
      (button_disabled this) "Resume Download"
  else
    set_state "ready" this.

(** [render] rebuilds the shadow tree, button included, and then calls
    [setDownloadState]. *)
Definition render (this : Component) : Component :=
  setDownloadState
    (mkComponent (attributes this) (files this) (meta this)
       false "Download for Offline playback").

(** The callback [init] runs when the URLs are resolved: [files] is the
    resolver's list, [dbFiles] and [dbMeta] are what the database holds
    for the video. *)
Definition init (files dbFiles : list FileMeta) (dbMeta : option VideoMeta.t)
    (this : Component) : Component :=
  let filesWithState := filesWithStateUpdatedFromDb files dbFiles in
  let this := setMeta dbMeta this in
  let this := mkComponent (attributes this) filesWithState (meta this)
                (button_disabled this) (button_innerHTML this) in
  render this.

End Builtins.

(** ** Definitions the statements use *)

(** The sum of a list of rationals. *)
Definition Qsum (l : list Q) : Q := foldr Qplus 0%Q l.

(** What one step of the reduction adds when the share of a file is the
    rational [pv]. *)
Definition share (pv : Q) (fileMeta : FileMeta) : Q :=
  if done fileMeta then pv
  else if (bytesDownloaded fileMeta =? 0)%Z || not_bytesTotal fileMeta then 0%Q
  else
    match bytesTotal fileMeta with
    | Some t => (inject_Z (bytesDownloaded fileMeta) / inject_Z t * pv)%Q
    | None => 0%Q
    end.

(** The two files of the resume scenario and a finished file. *)
Definition fileA : FileMeta := mkFileMeta "a" 40 (Some 100%Z) false.
Definition fileB : FileMeta := freshStub "b".
Definition fileA_done : FileMeta := mkFileMeta "a" 100 (Some 100%Z) true.
Definition fileB_done : FileMeta := mkFileMeta "b" 300 (Some 300%Z) true.

(** A later state [g] of a file dominates an earlier state [f]: the same
    file, no fewer bytes, [done] only goes from false to true and then with
    every byte there, and an unknown size may become known. *)
Definition dominates (f g : FileMeta) : Prop :=
  url g = url f
  ∧ (bytesDownloaded f ≤ bytesDownloaded g)%Z
  ∧ (done f = true → done g = true)
  ∧ (done f = false → done g = true → bytesTotal g = Some (bytesDownloaded g))
  ∧ (bytesTotal f = None ∨ bytesTotal g = bytesTotal f).

(** The byte counts of a record are not negative. *)
Definition nonnegative (f : FileMeta) : Prop :=
  (0 ≤ bytesDownloaded f)%Z ∧ ∀ t, bytesTotal f = Some t → (0 ≤ t)%Z.

(** The persisted record of a URL: the last one the database returned for
    it, the only one when the URLs of the records are distinct. *)
Definition persisted (u : string) (dbFiles : list FileMeta) : option FileMeta :=
  last (filter (λ dbFile, url dbFile = u) dbFiles).

(** Clamping a rational to the range from 0 to 100, in the words of the
    specification. *)
Definition clamp_0_100 (q : Q) : Q :=
  if Qle_bool q 0 then 0%Q else if Qle_bool 100 q then 100%Q else q.

(** A pair of conversions under which reading back a printed number gives
    the number: a finite number is printed as the hexadecimal code of its
    fraction, and a string that is not a number reads as NaN. *)
Definition model_toString (x : JS.number) : string :=
  match x with
  | JS.Num (n # d) => HexString.of_pos (encode (n, d))
  | JS.PosInf => "Infinity"
  | JS.NegInf => "-Infinity"
  | JS.NaN => "NaN"
  end.

Definition model_parseFloat (s : string) : JS.number :=
  if String.eqb s "Infinity" then JS.PosInf
  else if String.eqb s "-Infinity" then JS.NegInf
  else
    match s with
    | String "0"%char (String "x"%char _) =>
        match decode (HexString.to_pos s) with
        | Some (n, d) => JS.Num (n # d)
        | None => JS.NaN
        end
    | _ => JS.NaN
    end.

(** A rendered component whose database holds two files and no record of
    the video. *)
Definition resumed : Component :=
  mkComponent ∅ [fileA; fileB] None true "".

(** The lists of the resume scenario: the resolver names the files "a" and
    "b"; the database holds the record of "a" and a record of "c", which
    the resolver no longer names. *)
Definition fresh_files : list FileMeta := [freshStub "a"; freshStub "b"].
Definition stale : FileMeta := mkFileMeta "c" 7 (Some 9%Z) false.
Definition db_files : list FileMeta := [fileA; stale].

(** ** The rest of the component: lifecycle, download handlers, assets *)

Section Handlers.

Variable number_toString : JS.number → string.
Variable parseFloat : string → JS.number.

(** [connectedCallback]: [!this.state] holds when the attribute is missing
    and when it is the empty string. *)
Definition connectedCallback (this : Component) : Component :=
  match get_state this with
  | Some (String _ _) => this
  | Some EmptyString | None => set_state number_toString "not-initialized" this
  end.

(** The handler [runIDBDownloads] gives to [storageManager.onprogress]. *)
Definition onprogress (progress : value) (this : Component) : Component :=
  set_progress number_toString parseFloat progress this.

(** The handler [runIDBDownloads] gives to [storageManager.ondone]. *)
Definition ondone (this : Component) : Component :=
  let this := set_progress number_toString parseFloat (VNumber (JS.Num 100)) this in
  set_state number_toString "done" this.

(** What [runIDBDownloads] does to the component itself before it hands
    over to [downloadManager.run]: [this.state = 'partial'].  The two
    managers are other modules; they reach the component through the two
    handlers above. *)
Definition runIDBDownloads (this : Component) : Component :=
  set_state number_toString "partial" this.

End Handlers.

(** The part of [apiData] the asset methods read.  [src] is any value: the
    property may be missing.  [thumbnail] is an array of objects or
    something else; ['video-subtitles'] may be missing. *)
Record Thumbnail : Type := mkThumbnail { thumbnail_src : value }.
Record Subtitles : Type := mkSubtitles { subtitles_src : value }.

Inductive thumbnail_data : Type :=
| ThumbnailArray (thumbnails : list Thumbnail)
| ThumbnailOther (v : value).

Record ApiData : Type := mkApiData {
  thumbnail : thumbnail_data;
  video_subtitles : option (list Subtitles)
}.

Definition getPosterURLs (apiData : ApiData) : list value :=
  match thumbnail apiData with
  | ThumbnailArray thumbnails => thumbnail_src <$> thumbnails
  | ThumbnailOther v => [v]
  end.

Definition getSubtitlesUrls (apiData : ApiData) : list value :=
  let subtitlesObjects := default [] (video_subtitles apiData) in
  subtitles_src <$> subtitlesObjects.

(** The list [download] passes to [saveToCache]:
    [[...posterURLs, ...subtitlesURLs]]. *)
Definition download_cache_urls (apiData : ApiData) : list value :=
  getPosterURLs apiData ++ getSubtitlesUrls apiData.

(** ** The reduction of [getProgress] in binary64 arithmetic *)

Module Binary64.

(** A record with its numbers as the program holds them. *)
Record FileMeta : Type := mkFileMeta {
  url : string;
  bytesDownloaded : float;
  bytesTotal : option float;
  done : bool
}.

(** [files.length] as a number; an array has fewer than [2^32] elements. *)
Definition length_number {A : Type} (l : list A) : float :=
  of_uint63 (Uint63.of_Z (Z.of_nat (length l))).

(** ToNumber of the [bytesTotal] property: an unknown total is [undefined]. *)
Definition bytesTotal_number (fileMeta : FileMeta) : float :=
  match bytesTotal fileMeta with
  | Some t => t
  | None => nan
  end.

(** [!fileMeta.bytesTotal]: zero and NaN are falsy. *)
Definition not_bytesTotal (fileMeta : FileMeta) : bool :=
  match bytesTotal fileMeta with
  | Some t => (t =? 0)%float || is_nan t
  | None => true
  end.

(** [1 / this.internal.files.length] *)
Definition pieceValue (files : list FileMeta) : float :=
  (1 / length_number files)%float.

(** The callback given to [reduce]; [=== 0] holds for both zeros. *)
Definition reducer (pieceValue percentage : float) (fileMeta : FileMeta)
  : float :=
  if done fileMeta then
    (percentage + pieceValue)%float
  else if (bytesDownloaded fileMeta =? 0)%float || not_bytesTotal fileMeta then
    (percentage + 0)%float
  else
    let percentageOfCurrent :=
      (bytesDownloaded fileMeta / bytesTotal_number fileMeta)%float in
    (percentage + percentageOfCurrent * pieceValue)%float.

(** The value of [percentageProgress], before clamping. *)
Definition percentageProgress (files : list FileMeta) : float :=
  foldl (reducer (pieceValue files)) 0%float files.





(** Six finished files, and three files of which one has not started. *)
Definition finished (u : string) : FileMeta :=
  mkFileMeta u 100%float (Some 100%float) true.

Definition six_done : list FileMeta :=
  finished <$> ["a"; "b"; "c"; "d"; "e"; "f"].


End Binary64.

(** ** The lookup of the merge, with the inherited properties *)

(** [dbFilesByUrl[fileMeta.url]] is a property read: when the object has no
    own property of that name the read goes on to [Object.prototype].  This
    module is the merge with that read; [filesWithStateUpdatedFromDb] above
    is the merge on the own properties, and the two agree on every fresh
    list whose URLs are not names of [Object.prototype]. *)
Module Prototype.

(** The properties of [Object.prototype]. *)
Definition Object_prototype : list string :=
  [ "constructor"; "hasOwnProperty"; "isPrototypeOf"; "propertyIsEnumerable";
    "toLocaleString"; "toString"; "valueOf"; "__proto__";
    "__defineGetter__"; "__defineSetter__"; "__lookupGetter__";
    "__lookupSetter__" ].

(** What the working set holds at a position: a record, or the member of
    [Object.prototype] with that name (a function, or for ["__proto__"] the
    prototype itself). *)
Inductive entry : Type :=
| Meta (fileMeta : FileMeta)
| Inherited (name : string).

(** [obj[key]]; [None] is [undefined]. *)
Definition get (obj : gmap string FileMeta) (key : string) : option entry :=
  match obj !! key with
  | Some own => Some (Meta own)
  | None =>
      if bool_decide (key ∈ Object_prototype) then Some (Inherited key)
      else None
  end.

(** The [map] of [init]; records, functions and objects are all truthy. *)
Definition filesWithStateUpdatedFromDb (files dbFiles : list FileMeta)
  : list entry :=
  (λ fileMeta,
     match get (dbFilesByUrl dbFiles) (url fileMeta) with
     | Some found => found
     | None => Meta fileMeta
     end) <$> files.

(** [entry.url]: the members of [Object.prototype] have no such property. *)
Definition entry_url (e : entry) : option string :=
  match e with
  | Meta fileMeta => Some (url fileMeta)
  | Inherited _ => None
  end.

End Prototype.

(** ** More definitions the statements use *)

(** The record keeps the invariant of the data model: between no byte and
    all the bytes of a known size. *)
Definition well_formed (f : FileMeta) : Prop :=
  (0 ≤ bytesDownloaded f)%Z
  ∧ ∀ t, bytesTotal f = Some t → (bytesDownloaded f ≤ t)%Z.

(** The file counts in the progress: it is done, or it has bytes and a
    size that is known and not zero. *)
Definition started (f : FileMeta) : bool :=
  done f || (negb (bytesDownloaded f =? 0)%Z && negb (not_bytesTotal f)).

(** A component in the middle of a download, with an attribute of its own. *)
Definition downloading : Component :=
  mkComponent {[ "state" := "partial"; "lang" := "en" ]} [fileA; fileB]
    (Some (VideoMeta.mk (Some false))) false "Resume Download".

Definition sample_apiData : ApiData :=
  mkApiData (ThumbnailArray [mkThumbnail (VString "p1"); mkThumbnail (VString "p2")])
    (Some [mkSubtitles (VString "s1")]).

(** * Properties *)

(** ** Numbers *)

#[global] Instance number_equiv_refl : Reflexive JS.equiv.
Proof. intros [q| | |]; simpl; auto with qarith. Qed.

#[global] Instance number_equiv_sym : Symmetric JS.equiv.
Proof. intros [a| | |] [b| | |]; simpl; auto with qarith. Qed.

#[global] Instance number_equiv_trans : Transitive JS.equiv.
Proof.
  intros [a| | |] [b| | |] [c| | |]; simpl; try tauto.
  apply Qeq_trans.
Qed.

Lemma Qle_bool_false (a b : Q) : Qle_bool a b = false ↔ (b < a)%Q.
Proof.
  rewrite <- not_true_iff_false, Qle_bool_iff. split.
  - apply Qnot_le_lt.
  - apply Qlt_not_le.
Qed.

(** Clamping a finite number gives a finite number between the bounds. *)
Lemma clamp_Num_range (p : Q) :
  ∃ q, JS.max (JS.Num 0) (JS.min (JS.Num p) (JS.Num 100)) = JS.Num q
       ∧ (0 <= q)%Q ∧ (q <= 100)%Q.
Proof.
  simpl. eexists; split; [reflexivity|].
  destruct (Qle_bool p 100) eqn:H1.
  - apply Qle_bool_iff in H1.
    destruct (Qle_bool 0 p) eqn:H2.
    + apply Qle_bool_iff in H2. auto.
    + split; [apply Qle_refl | discriminate].
  - assert (H2 : Qle_bool 0 100 = true) by reflexivity.
    rewrite H2. split; [discriminate | apply Qle_refl].
Qed.

(** Clamping is monotone on finite numbers. *)
Lemma clamp_Num_mono (p q : Q) :
  (p <= q)%Q →
  JS.leb (JS.max (JS.Num 0) (JS.min (JS.Num p) (JS.Num 100)))
         (JS.max (JS.Num 0) (JS.min (JS.Num q) (JS.Num 100))) = true.
Proof.
  intros Hpq. simpl.
  destruct (Qle_bool p 100) eqn:H1, (Qle_bool q 100) eqn:H2,
           (Qle_bool 0 p) eqn:H3, (Qle_bool 0 q) eqn:H4;
    cbv iota; try change (Qle_bool 0 100) with true; cbv iota;
    apply Qle_bool_iff;
    repeat match goal with
    | H : Qle_bool _ _ = true |- _ => apply Qle_bool_iff in H
    | H : Qle_bool _ _ = false |- _ => apply Qle_bool_false in H
    end; lra.
Qed.

(** ** The reduction of [getProgress] *)

Lemma pieceValue_cons (f : FileMeta) (files : list FileMeta) :
  pieceValue (f :: files)
  = JS.Num (1 / inject_Z (Z.of_nat (length (f :: files)))).
Proof.
  unfold pieceValue, JS.of_nat, JS.of_Z, JS.div.
  assert (H : (inject_Z (Z.of_nat (length (f :: files))) ?= 0)%Q = Gt).
  { apply Qgt_alt. change 0%Q with (inject_Z 0). rewrite <- Zlt_Qlt.
    simpl length. lia. }
  rewrite H. reflexivity.
Qed.

Lemma reducer_Num (pv p : Q) (f : FileMeta) :
  reducer (JS.Num pv) (JS.Num p) f = JS.Num (p + share pv f).
Proof.
  unfold reducer, share, bytesTotal_number, not_bytesTotal.
  destruct (done f); [reflexivity|].
  destruct (bytesTotal f) as [t|].
  - destruct (Z.eqb_spec (bytesDownloaded f) 0); [reflexivity|].
    destruct (Z.eqb_spec t 0) as [|Ht]; [reflexivity|]. simpl.
    assert (H : (inject_Z t ?= 0)%Q ≠ Eq).
    { rewrite <- Qeq_alt. change 0%Q with (inject_Z 0).
      rewrite inject_Z_injective. exact Ht. }
    destruct (inject_Z t ?= 0)%Q; [congruence | reflexivity | reflexivity].
  - rewrite orb_true_r. reflexivity.
Qed.

Lemma foldl_reducer_Num (pv : Q) (files : list FileMeta) (p : Q) :
  foldl (reducer (JS.Num pv)) (JS.Num p) files
  = JS.Num (foldl (λ acc f, acc + share pv f)%Q p files).
Proof.
  revert p. induction files as [|f files IH]; intros p; simpl.
  - reflexivity.
  - rewrite reducer_Num. apply IH.
Qed.

Lemma foldl_share_sum (pv : Q) (files : list FileMeta) (p : Q) :
  (foldl (λ acc f, acc + share pv f) p files == p + Qsum (share pv <$> files))%Q.
Proof.
  revert p. induction files as [|f files IH]; intros p.
  - simpl. ring.
  - change (foldl (λ acc f, acc + share pv f) (p + share pv f) files
            == p + (share pv f + Qsum (share pv <$> files)))%Q.
    rewrite IH. ring.
Qed.

(** The pre-clamp value of a set is finite. *)
Lemma percentageProgress_Num (files : list FileMeta) :
  percentageProgress files
  = JS.Num (foldl (λ acc f, acc + share (1 / inject_Z (Z.of_nat (length files))) f)%Q
              0%Q files).
Proof.
  unfold percentageProgress. destruct files as [|f files]; [reflexivity|].
  rewrite pieceValue_cons. apply foldl_reducer_Num.
Qed.

Lemma share_nonneg (pv : Q) (f : FileMeta) :
  (0 <= pv)%Q → nonnegative f → (0 <= share pv f)%Q.
Proof.
  intros Hpv [Hbd Hbt]. unfold share, not_bytesTotal.
  destruct (done f); [exact Hpv|].
  destruct (bytesTotal f) as [t|]; [|rewrite orb_true_r; apply Qle_refl].
  destruct (_ || _); [apply Qle_refl|].
  apply Qmult_le_0_compat; [|exact Hpv].
  apply Qmult_le_0_compat.
  - change 0%Q with (inject_Z 0). rewrite <- Zle_Qle. exact Hbd.
  - apply Qinv_le_0_compat. change 0%Q with (inject_Z 0).
    rewrite <- Zle_Qle. auto.
Qed.

Lemma share_mono (pv : Q) (f g : FileMeta) :
  (0 <= pv)%Q → dominates f g → nonnegative g →
  (share pv f <= share pv g)%Q.
Proof.
  intros Hpv (_ & Hbd & Hd1 & Hd2 & Hbt) [Hg0 Hgt].
  destruct (done f) eqn:Df.
  { unfold share. rewrite Df, (Hd1 eq_refl). apply Qle_refl. }
  destruct (done g) eqn:Dg.
  - (* the file has just been finished *)
    specialize (Hd2 eq_refl eq_refl).
    unfold share, not_bytesTotal. rewrite Df, Dg.
    destruct (bytesTotal f) as [t|] eqn:Bf;
      [|rewrite orb_true_r; exact Hpv].
    destruct (Z.eqb_spec (bytesDownloaded f) 0); [exact Hpv|].
    destruct (Z.eqb_spec t 0) as [|Ht]; [exact Hpv|]. simpl.
    destruct Hbt as [Hbt|Hbt]; [discriminate|].
    assert (t = bytesDownloaded g) by congruence. subst t.
    rewrite <- (Qmult_1_l pv) at 2.
    apply Qmult_le_compat_r; [|exact Hpv].
    apply Qle_shift_div_r.
    + change 0%Q with (inject_Z 0). rewrite <- Zlt_Qlt. lia.
    + rewrite Qmult_1_l, <- Zle_Qle. exact Hbd.
  - (* still downloading *)
    destruct (bytesTotal f) as [t|] eqn:Bf.
    + destruct Hbt as [Hbt|Hbt]; [discriminate|].
      unfold share, not_bytesTotal. rewrite Df, Dg, Hbt, Bf.
      destruct (Z.eqb_spec t 0) as [|Ht];
        [rewrite !orb_true_r; apply Qle_refl|].
      rewrite !orb_false_r.
      assert (Hinv : (0 <= / inject_Z t)%Q).
      { apply Qinv_le_0_compat. change 0%Q with (inject_Z 0).
        rewrite <- Zle_Qle. apply Hgt. congruence. }
      assert (Hmono : (inject_Z (bytesDownloaded f) / inject_Z t * pv
                       <= inject_Z (bytesDownloaded g) / inject_Z t * pv)%Q).
      { apply Qmult_le_compat_r; [|exact Hpv].
        apply Qmult_le_compat_r; [|exact Hinv].
        rewrite <- Zle_Qle. exact Hbd. }
      assert (Hg : (0 <= inject_Z (bytesDownloaded g) / inject_Z t * pv)%Q).
      { apply Qmult_le_0_compat; [|exact Hpv].
        apply Qmult_le_0_compat; [|exact Hinv].
        change 0%Q with (inject_Z 0). rewrite <- Zle_Qle. exact Hg0. }
      destruct (Z.eqb_spec (bytesDownloaded f) 0) as [Ef|Ef];
        destruct (Z.eqb_spec (bytesDownloaded g) 0) as [Eg|Eg].
      * apply Qle_refl.
      * exact Hg.
      * rewrite Eg in Hmono. unfold Qdiv in Hmono.
        change (inject_Z 0) with 0%Q in Hmono.
        rewrite !Qmult_0_l in Hmono. exact Hmono.
      * exact Hmono.
    + assert (Hs : share pv f = 0%Q).
      { unfold share, not_bytesTotal. rewrite Df, Bf, orb_true_r. reflexivity. }
      rewrite Hs. apply share_nonneg; [exact Hpv | split; assumption].
Qed.

Lemma foldl_share_mono (pv : Q) (l1 l2 : list FileMeta) (p q : Q) :
  (0 <= pv)%Q → (p <= q)%Q →
  Forall2 dominates l1 l2 → Forall nonnegative l2 →
  (foldl (λ acc f, acc + share pv f) p l1
   <= foldl (λ acc f, acc + share pv f) q l2)%Q.
Proof.
  intros Hpv Hpq Hdom. revert p q Hpq.
  induction Hdom as [|f g l1 l2 Hfg _ IH]; intros p q Hpq H2.
  - exact Hpq.
  - apply Forall_cons in H2 as [Hg H2].
    simpl. apply IH; [|assumption].
    apply Qplus_le_compat; [exact Hpq|].
    apply share_mono; assumption.
Qed.

(** Closes [Forall2 dominates] and [Forall nonnegative] on explicit lists. *)
Ltac solve_files :=
  repeat match goal with
         | |- Forall2 _ _ _ => constructor
         | |- Forall _ _ => constructor
         end;
  unfold dominates, nonnegative; simpl;
  repeat split; try lia; try congruence;
  try (left; reflexivity); try (right; reflexivity);
  try (intros ? [= <-]; lia).

Lemma piece_nonneg (N : nat) : (0 <= 1 / inject_Z (Z.of_nat N))%Q.
Proof.
  apply Qmult_le_0_compat; [discriminate|].
  apply Qinv_le_0_compat. change 0%Q with (inject_Z 0).
  rewrite <- Zle_Qle. lia.
Qed.

(** ** The claims on [getProgress] *)

(** C1. In the resume scenario (file A with 40 of 100 bytes, file B a fresh
    stub) [getProgress] returns the mean of the fractions, 1/5, and not the
    percentage 20: the sum is never multiplied by 100. *)
Theorem getProgress_resume_scenario :
  getProgress [fileA; fileB] =n= JS.Num (1 # 5)
  ∧ ¬ (getProgress [fileA; fileB] =n= JS.Num 20).
Proof.
  split.
  - vm_compute. reflexivity.
  - vm_compute. discriminate.
Qed.

(** ** Binary64 arithmetic *)

Section Rounding.

Import Binary64.
Local Open Scope Z_scope.






Lemma Zdigits2_zero (a : Z) : 0 <= a → Zdigits2 a <= 0 → a = 0.
Proof. destruct a; simpl; lia. Qed.












End Rounding.

Section Binary64Reduction.

Import Binary64.
Local Open Scope float_scope.











End Binary64Reduction.



(** C4. [getProgress] is monotone in the progress of the files: when the
    second set dominates the first position by position, and the byte
    counts of the second set are not negative, as the data model keeps them,
    [getProgress] of the second set is at least [getProgress] of the
    first. *)
Theorem getProgress_monotone (l1 l2 : list FileMeta) :
  Forall2 dominates l1 l2 →
  Forall nonnegative l2 →
  JS.leb (getProgress l1) (getProgress l2) = true.
Proof.
  intros Hdom H2. unfold getProgress.
  rewrite !percentageProgress_Num, <- (Forall2_length _ _ _ Hdom).
  apply clamp_Num_mono, foldl_share_mono; auto using piece_nonneg.
  apply Qle_refl.
Qed.

Lemma getProgress_monotone_witness :
  Forall2 dominates [fileA; fileB] [fileA_done; fileB]
  ∧ Forall nonnegative [fileA_done; fileB]
  ∧ JS.leb (getProgress [fileA; fileB]) (getProgress [fileA_done; fileB]) = true.
Proof.
  assert (Hdom : Forall2 dominates [fileA; fileB] [fileA_done; fileB])
    by solve_files.
  assert (H2 : Forall nonnegative [fileA_done; fileB]) by solve_files.
  split; [exact Hdom | split; [exact H2|]].
  exact (getProgress_monotone [fileA; fileB] [fileA_done; fileB] Hdom H2).
Defined.

(** C6. With both files of the fresh-download scenario done, [getProgress]
    returns 1 and not 100. *)
Theorem getProgress_all_done_scenario :
  getProgress [fileA_done; fileB_done] =n= JS.Num 1
  ∧ ¬ (getProgress [fileA_done; fileB_done] =n= JS.Num 100).
Proof.
  split.
  - vm_compute. reflexivity.
  - vm_compute. discriminate.
Qed.

(** C7. Whatever the flags and byte counts of the files, [getProgress]
    returns a finite number between 0 and 100. *)
Theorem getProgress_range (files : list FileMeta) :
  ∃ q, getProgress files = JS.Num q ∧ (0 <= q)%Q ∧ (q <= 100)%Q.
Proof.
  unfold getProgress. rewrite percentageProgress_Num. apply clamp_Num_range.
Qed.

(** C9. For the empty set the share of a file is [1/0], an infinity, which
    the reduction never uses: the sum is 0 and so is the result. *)
Theorem getProgress_empty :
  pieceValue [] = JS.PosInf
  ∧ percentageProgress [] = JS.Num 0
  ∧ getProgress [] = JS.Num 0.
Proof. repeat split. Qed.

(** ** The resume merge *)

Lemma dbFilesByUrl_snoc (dbFiles : list FileMeta) (dbFile : FileMeta) :
  dbFilesByUrl (dbFiles ++ [dbFile])
  = <[url dbFile := dbFile]> (dbFilesByUrl dbFiles).
Proof.
  unfold dbFilesByUrl, fromEntries, dbFilesUrlTuples.
  rewrite fmap_app, foldl_app. reflexivity.
Qed.

(** The object built from the records maps a URL to its persisted record. *)
Lemma dbFilesByUrl_lookup (dbFiles : list FileMeta) (u : string) :
  dbFilesByUrl dbFiles !! u = persisted u dbFiles.
Proof.
  unfold persisted.
  induction dbFiles as [|dbFile dbFiles IH] using rev_ind.
  - reflexivity.
  - rewrite dbFilesByUrl_snoc, filter_app, lookup_insert.
    rewrite filter_cons, filter_nil. case_decide as Hu.
    + apply eq_sym, last_snoc.
    + rewrite app_nil_r. exact IH.
Qed.

Lemma persisted_Some (u : string) (dbFiles : list FileMeta) (p : FileMeta) :
  persisted u dbFiles = Some p → p ∈ dbFiles ∧ url p = u.
Proof.
  intros H. apply last_Some_elem_of, list_elem_of_filter in H. tauto.
Qed.

Lemma persisted_None (u : string) (dbFiles : list FileMeta) :
  persisted u dbFiles = None ↔ ∀ p, p ∈ dbFiles → url p ≠ u.
Proof.
  unfold persisted. rewrite last_None. split.
  - intros H p Hp Hu.
    exact (filter_nil_not_elem_of (λ dbFile, url dbFile = u) dbFiles p H Hu Hp).
  - intros H. destruct (filter _ dbFiles) as [|p l] eqn:E; [reflexivity|].
    assert (Hp : p ∈ filter (λ dbFile, url dbFile = u) dbFiles)
      by (rewrite E; left).
    apply list_elem_of_filter in Hp as [Hu Hp]. destruct (H p Hp Hu).
Qed.

Lemma persisted_elem_of (dbFiles : list FileMeta) (p : FileMeta) :
  p ∈ dbFiles → ∃ q, persisted (url p) dbFiles = Some q.
Proof.
  intros Hp. destruct (persisted (url p) dbFiles) as [q|] eqn:E; [eauto|].
  rewrite persisted_None in E. destruct (E p Hp eq_refl).
Qed.

(** In a list with distinct URLs a URL names one record. *)
Lemma NoDup_url_inj (l : list FileMeta) (p q : FileMeta) :
  NoDup (url <$> l) → p ∈ l → q ∈ l → url p = url q → p = q.
Proof.
  induction l as [|x l IH]; intros Hnd Hp Hq Hu.
  - inversion Hp.
  - rewrite fmap_cons in Hnd. apply NoDup_cons in Hnd as [Hx Hnd].
    apply elem_of_cons in Hp as [->|Hp];
      apply elem_of_cons in Hq as [->|Hq]; auto.
    + destruct Hx. rewrite Hu. apply list_elem_of_fmap_2. exact Hq.
    + destruct Hx. rewrite <- Hu. apply list_elem_of_fmap_2. exact Hp.
Qed.

Lemma persisted_unique (dbFiles : list FileMeta) (p : FileMeta) :
  NoDup (url <$> dbFiles) → p ∈ dbFiles → persisted (url p) dbFiles = Some p.
Proof.
  intros Hnd Hp. destruct (persisted_elem_of dbFiles p Hp) as [q Hq].
  rewrite Hq. f_equal.
  apply persisted_Some in Hq as [Hq Hu].
  eapply NoDup_url_inj; eauto.
Qed.

Lemma filesWithStateUpdatedFromDb_lookup
    (files dbFiles : list FileMeta) (i : nat) :
  filesWithStateUpdatedFromDb files dbFiles !! i
  = (λ fresh, default fresh (persisted (url fresh) dbFiles)) <$> files !! i.
Proof.
  unfold filesWithStateUpdatedFromDb. rewrite list_lookup_fmap.
  destruct (files !! i) as [fresh|]; [|reflexivity]. simpl.
  rewrite dbFilesByUrl_lookup.
  destruct (persisted (url fresh) dbFiles); reflexivity.
Qed.

(** Every entry of the working set carries the URL of the fresh entry at
    its position. *)
Lemma filesWithStateUpdatedFromDb_url (files dbFiles : list FileMeta) :
  url <$> filesWithStateUpdatedFromDb files dbFiles = url <$> files.
Proof.
  unfold filesWithStateUpdatedFromDb. rewrite <- list_fmap_compose.
  apply list_fmap_ext. intros i fresh _. simpl.
  rewrite dbFilesByUrl_lookup.
  destruct (persisted (url fresh) dbFiles) as [p|] eqn:E; [|reflexivity].
  apply persisted_Some in E. tauto.
Qed.

Lemma filesWithStateUpdatedFromDb_self (files : list FileMeta) :
  (∀ f g, f ∈ files → g ∈ files → url f = url g → f = g) →
  filesWithStateUpdatedFromDb files files = files.
Proof.
  intros Hfun. unfold filesWithStateUpdatedFromDb.
  transitivity (id <$> files); [|apply list_fmap_id].
  apply list_fmap_ext. intros i f Hi. simpl.
  apply list_elem_of_lookup_2 in Hi.
  rewrite dbFilesByUrl_lookup.
  destruct (persisted_elem_of files f Hi) as [q Hq]. rewrite Hq.
  apply persisted_Some in Hq as [Hq Hu]. auto.
Qed.

(** The merge on the own properties: length, order, replacement by the
    persisted record, and no record for a URL the fresh list does not
    name. *)
Lemma own_key_merge (files dbFiles : list FileMeta) :
  let workingSet := filesWithStateUpdatedFromDb files dbFiles in
  length workingSet = length files
  ∧ (∀ i fresh, files !! i = Some fresh →
       workingSet !! i = Some (default fresh (persisted (url fresh) dbFiles))
       ∧ (∀ p, NoDup (url <$> dbFiles) → p ∈ dbFiles → url p = url fresh →
            workingSet !! i = Some p)
       ∧ ((∀ p, p ∈ dbFiles → url p ≠ url fresh) →
            workingSet !! i = Some fresh))
  ∧ (∀ p, p ∈ dbFiles → url p ∉ url <$> files → p ∉ workingSet).
Proof.
  intros workingSet. split; [|split].
  - apply length_fmap.
  - intros i fresh Hi.
    assert (Hw : workingSet !! i
                 = Some (default fresh (persisted (url fresh) dbFiles))).
    { unfold workingSet. rewrite filesWithStateUpdatedFromDb_lookup, Hi.
      reflexivity. }
    split; [exact Hw|]. split.
    + intros p Hnd Hp Hu. rewrite Hw, <- Hu, persisted_unique by assumption.
      reflexivity.
    + intros Hnone. apply persisted_None in Hnone. rewrite Hw, Hnone.
      reflexivity.
  - intros p _ Hu Hp. apply Hu.
    rewrite <- (filesWithStateUpdatedFromDb_url files dbFiles).
    apply list_elem_of_fmap_2. exact Hp.
Qed.

Lemma Prototype_lookup (files dbFiles : list FileMeta) (i : nat) :
  Prototype.filesWithStateUpdatedFromDb files dbFiles !! i
  = (λ fresh,
       match persisted (url fresh) dbFiles with
       | Some p => Prototype.Meta p
       | None =>
           if bool_decide (url fresh ∈ Prototype.Object_prototype)
           then Prototype.Inherited (url fresh)
           else Prototype.Meta fresh
       end) <$> files !! i.
Proof.
  unfold Prototype.filesWithStateUpdatedFromDb, Prototype.get.
  rewrite list_lookup_fmap.
  destruct (files !! i) as [fresh|]; [|reflexivity]. simpl.
  rewrite dbFilesByUrl_lookup.
  destruct (persisted (url fresh) dbFiles); [reflexivity|].
  destruct (bool_decide _); reflexivity.
Qed.

(** On a fresh list without a name of [Object.prototype] the read through
    the prototype chain finds what the own properties hold. *)
Lemma Prototype_own_keys (files dbFiles : list FileMeta) :
  Forall (λ f, url f ∉ Prototype.Object_prototype) files →
  Prototype.filesWithStateUpdatedFromDb files dbFiles
  = Prototype.Meta <$> filesWithStateUpdatedFromDb files dbFiles.
Proof.
  intros Hown. apply list_eq. intros i.
  rewrite Prototype_lookup, list_lookup_fmap, filesWithStateUpdatedFromDb_lookup.
  destruct (files !! i) as [fresh|] eqn:Hi; [|reflexivity]. simpl.
  destruct (persisted (url fresh) dbFiles); [reflexivity|].
  rewrite Forall_forall in Hown.
  rewrite bool_decide_eq_false_2; [reflexivity|].
  apply Hown. apply list_elem_of_lookup_2 in Hi. exact Hi.
Qed.

(** C3. For a fresh entry whose URL is "constructor" and an empty database
    the working set does not keep the fresh entry: the lookup finds the
    inherited [Object.prototype.constructor], which is truthy, and the
    working set holds that function. *)
Theorem working_set_inherited_key :
  Prototype.filesWithStateUpdatedFromDb [freshStub "constructor"] []
  = [Prototype.Inherited "constructor"]
  ∧ Prototype.filesWithStateUpdatedFromDb [freshStub "constructor"] []
    ≠ [Prototype.Meta (freshStub "constructor")].
Proof. split; [reflexivity | discriminate]. Qed.

(** C5. Merging the fresh output with persisted records that are exactly
    its entries gives the fresh output back: for every list of stubs of the
    resolver, and for every list of records with distinct URLs. *)
Theorem resume_merge_idempotent :
  (∀ urls : list string,
     filesWithStateUpdatedFromDb (freshStub <$> urls) (freshStub <$> urls)
     = freshStub <$> urls)
  ∧ (∀ files : list FileMeta,
       NoDup (url <$> files) →
       filesWithStateUpdatedFromDb files files = files).
Proof.
  split.
  - intros urls. apply filesWithStateUpdatedFromDb_self.
    intros f g Hf Hg Hu.
    apply list_elem_of_fmap in Hf as (u & -> & _).
    apply list_elem_of_fmap in Hg as (v & -> & _).
    simpl in Hu. congruence.
  - intros files Hnd. apply filesWithStateUpdatedFromDb_self.
    intros f g. apply NoDup_url_inj. exact Hnd.
Qed.

Lemma resume_merge_idempotent_witness :
  NoDup (url <$> db_files)
  ∧ filesWithStateUpdatedFromDb db_files db_files = db_files.
Proof.
  assert (H : NoDup (url <$> db_files)) by compute_done.
  split; [exact H|].
  exact (proj2 resume_merge_idempotent db_files H).
Defined.

(** ** The reflected attributes *)

Lemma clampedProgress_idempotent (x : JS.number) :
  clampedProgress (clampedProgress x) = clampedProgress x.
Proof.
  destruct x as [q| | |]; try reflexivity.
  unfold clampedProgress. simpl.
  destruct (Qle_bool 0 q) eqn:H1.
  - destruct (Qle_bool q 100) eqn:H2; simpl.
    + rewrite H1, H2. reflexivity.
    + reflexivity.
  - reflexivity.
Qed.

Lemma clampedProgress_Num (q : Q) :
  clampedProgress (JS.Num q) =n= JS.Num (clamp_0_100 q).
Proof.
  unfold clampedProgress, clamp_0_100. simpl.
  destruct (Qle_bool 0 q) eqn:H1, (Qle_bool q 0) eqn:H2,
           (Qle_bool q 100) eqn:H3, (Qle_bool 100 q) eqn:H4;
    cbv iota; try change (Qle_bool 0 100) with true; cbv iota;
    repeat match goal with
    | H : Qle_bool _ _ = true |- _ => apply Qle_bool_iff in H
    | H : Qle_bool _ _ = false |- _ => apply Qle_bool_false in H
    end; simpl; lra.
Qed.

Lemma model_parseFloat_toString (x : JS.number) :
  model_parseFloat (model_toString x) = x.
Proof.
  destruct x as [[n d]| | |]; try reflexivity.
  unfold model_toString, model_parseFloat.
  rewrite HexString.to_pos_of_pos, decode_encode. reflexivity.
Qed.

Section Accessors.

Variable number_toString : JS.number → string.
Variable parseFloat : string → JS.number.

Lemma get_state_set_state (state : string) (this : Component) :
  get_state (set_state number_toString state this) = Some state.
Proof. apply lookup_insert_eq. Qed.

Lemma set_progress_attributes (v : value) (this : Component) :
  set_progress number_toString parseFloat v this
  = mkComponent
      (<["progress" :=
           number_toString
             (clampedProgress (parseFloat (ToString number_toString v)))]>
         (attributes this))
      (files this) (meta this) (button_disabled this) (button_innerHTML this).
Proof. reflexivity. Qed.

Lemma get_progress_attribute (s : string) (this : Component) :
  getAttribute "progress" this = Some s →
  get_progress number_toString parseFloat this
  = clampedProgress (parseFloat s).
Proof. unfold get_progress. intros ->. reflexivity. Qed.

(** Without a record of the video the state becomes "partial" or "ready". *)
Lemma setDownloadState_absent (this : Component) :
  meta this = None →
  get_state (setDownloadState number_toString parseFloat this) = Some "partial"
  ∨ get_state (setDownloadState number_toString parseFloat this) = Some "ready".
Proof.
  intros Hmeta. unfold setDownloadState, getMeta. simpl. rewrite Hmeta. simpl.
  destruct (JS.truthy (getProgress (files this))).
  - left. unfold get_state, getAttribute. simpl.
    rewrite lookup_insert_ne by discriminate. apply lookup_insert_eq.
  - right. apply get_state_set_state.
Qed.

Lemma init_absent (files dbFiles : list FileMeta) (this : Component) :
  get_state (init number_toString parseFloat files dbFiles None this)
    = Some "partial"
  ∨ get_state (init number_toString parseFloat files dbFiles None this)
    = Some "ready".
Proof. unfold init, render. apply setDownloadState_absent. reflexivity. Qed.

Local Abbreviation ToString := (ToString number_toString).
Local Abbreviation get_progress := (get_progress number_toString parseFloat).
Local Abbreviation set_progress := (set_progress number_toString parseFloat).
Local Abbreviation setDownloadState :=
  (setDownloadState number_toString parseFloat).
Local Abbreviation init := (init number_toString parseFloat).

(** C8. When the database has no record of the video, [getMeta] gives an
    object whose [done] is not true, and [setDownloadState] leaves the
    component in the state "partial" or "ready", never "done"; so does
    [init] when it renders. *)
Theorem absent_meta_not_done (this : Component) :
  meta this = None →
  VideoMeta.done (getMeta this) ≠ Some true
  ∧ (get_state (setDownloadState this) = Some "partial"
     ∨ get_state (setDownloadState this) = Some "ready")
  ∧ get_state (setDownloadState this) ≠ Some "done"
  ∧ ∀ files dbFiles,
      get_state (init files dbFiles None this) ≠ Some "done".
Proof.
  intros Hmeta. split; [|split; [|split]].
  - unfold getMeta. rewrite Hmeta. discriminate.
  - apply setDownloadState_absent, Hmeta.
  - destruct (setDownloadState_absent this Hmeta) as [-> | ->]; discriminate.
  - intros files dbFiles.
    destruct (init_absent files dbFiles this) as [-> | ->]; discriminate.
Qed.

Hypothesis parseFloat_toString : ∀ x, parseFloat (number_toString x) = x.

Lemma get_set_progress (v : value) (this : Component) :
  get_progress (set_progress v this)
  = clampedProgress (parseFloat (ToString v)).
Proof.
  rewrite (get_progress_attribute
             (number_toString (clampedProgress (parseFloat (ToString v))))).
  - rewrite parseFloat_toString. apply clampedProgress_idempotent.
  - rewrite set_progress_attributes. apply lookup_insert_eq.
Qed.

(** C10. Assigning a finite number to [progress] and reading it back gives
    the number clamped to the range from 0 to 100; assigning a value twice,
    or assigning the value read back, changes nothing more; after assigning
    a value that [parseFloat] does not read as a number the getter returns
    NaN. *)
Theorem progress_set_get (this : Component) :
  (∀ q, get_progress (set_progress (VNumber (JS.Num q)) this)
        =n= JS.Num (clamp_0_100 q))
  ∧ (∀ v, set_progress v (set_progress v this) = set_progress v this)
  ∧ (∀ v, set_progress (VNumber (get_progress (set_progress v this)))
            (set_progress v this)
          = set_progress v this)
  ∧ (∀ v, parseFloat (ToString v) = JS.NaN →
          get_progress (set_progress v this) = JS.NaN).
Proof.
  split; [|split; [|split]].
  - intros q. rewrite get_set_progress. simpl.
    rewrite parseFloat_toString. apply clampedProgress_Num.
  - intros v. rewrite !set_progress_attributes. simpl.
    rewrite insert_insert_eq. reflexivity.
  - intros v. rewrite get_set_progress, !set_progress_attributes. simpl.
    rewrite parseFloat_toString, clampedProgress_idempotent, insert_insert_eq.
    reflexivity.
  - intros v Hv. rewrite get_set_progress, Hv. reflexivity.
Qed.

End Accessors.

Lemma absent_meta_not_done_witness :
  meta resumed = None
  ∧ get_state (setDownloadState model_toString model_parseFloat resumed)
    = Some "partial".
Proof.
  split; [reflexivity|].
  destruct (absent_meta_not_done model_toString model_parseFloat resumed eq_refl)
    as (_ & [H | H] & _).
  - exact H.
  - vm_compute in H. discriminate H.
Defined.

Lemma progress_set_get_witness :
  get_progress model_toString model_parseFloat
    (set_progress model_toString model_parseFloat (VNumber (JS.Num 250)) resumed)
  =n= JS.Num 100
  ∧ get_progress model_toString model_parseFloat
      (set_progress model_toString model_parseFloat VUndefined resumed)
    = JS.NaN.
Proof.
  destruct (progress_set_get model_toString model_parseFloat
              model_parseFloat_toString resumed) as (Hnum & _ & _ & Hnan).
  split.
  - exact (Hnum 250%Q).
  - apply Hnan. reflexivity.
Defined.

(** * Further properties *)

(** ** [getProgress] *)

Lemma clamp_Num_equiv (p q : Q) :
  (p == q)%Q →
  JS.max (JS.Num 0) (JS.min (JS.Num p) (JS.Num 100))
  =n= JS.max (JS.Num 0) (JS.min (JS.Num q) (JS.Num 100)).
Proof.
  intros Hpq. simpl.
  destruct (Qle_bool p 100) eqn:H1, (Qle_bool q 100) eqn:H2,
           (Qle_bool 0 p) eqn:H3, (Qle_bool 0 q) eqn:H4;
    cbv iota; try change (Qle_bool 0 100) with true; cbv iota;
    repeat match goal with
    | H : Qle_bool _ _ = true |- _ => apply Qle_bool_iff in H
    | H : Qle_bool _ _ = false |- _ => apply Qle_bool_false in H
    end; lra.
Qed.

(** A value between 0 and 100 goes through the clamp unchanged. *)
Lemma clamp_Num_id (q : Q) :
  (0 <= q)%Q → (q <= 100)%Q →
  JS.max (JS.Num 0) (JS.min (JS.Num q) (JS.Num 100)) = JS.Num q.
Proof.
  intros H0 H1. simpl.
  apply Qle_bool_iff in H0, H1. rewrite H1, H0. reflexivity.
Qed.

Lemma percentageProgress_sum (files : list FileMeta) :
  ∃ s, percentageProgress files = JS.Num s
       ∧ (s == Qsum (share (1 / inject_Z (Z.of_nat (length files))) <$> files))%Q.
Proof.
  eexists. split; [apply percentageProgress_Num|].
  rewrite foldl_share_sum. ring.
Qed.

Lemma well_formed_nonnegative (f : FileMeta) : well_formed f → nonnegative f.
Proof.
  intros [H0 Ht]. split; [exact H0|].
  intros t Hbt. specialize (Ht t Hbt). lia.
Qed.

Lemma share_le_piece (pv : Q) (f : FileMeta) :
  (0 <= pv)%Q → well_formed f → (share pv f <= pv)%Q.
Proof.
  intros Hpv [H0 Ht]. unfold share, not_bytesTotal.
  destruct (done f); [apply Qle_refl|].
  destruct (bytesTotal f) as [t|]; [|rewrite orb_true_r; exact Hpv].
  destruct (Z.eqb_spec (bytesDownloaded f) 0); [exact Hpv|].
  destruct (Z.eqb_spec t 0) as [|Hne]; [exact Hpv|]. simpl.
  specialize (Ht t eq_refl).
  rewrite <- (Qmult_1_l pv) at 2.
  apply Qmult_le_compat_r; [|exact Hpv].
  apply Qle_shift_div_r.
  - change 0%Q with (inject_Z 0). rewrite <- Zlt_Qlt. lia.
  - rewrite Qmult_1_l, <- Zle_Qle. exact Ht.
Qed.

Lemma Qsum_share_bounds (pv : Q) (files : list FileMeta) :
  (0 <= pv)%Q → Forall well_formed files →
  (0 <= Qsum (share pv <$> files))%Q
  ∧ (Qsum (share pv <$> files) <= inject_Z (Z.of_nat (length files)) * pv)%Q.
Proof.
  intros Hpv Hwf. induction Hwf as [|f files Hf _ [IH0 IH1]].
  - change (0 <= 0 ∧ 0 <= 0 * pv)%Q. split; lra.
  - change (Qsum (share pv <$> f :: files))
      with (share pv f + Qsum (share pv <$> files))%Q.
    pose proof (share_nonneg pv f Hpv (well_formed_nonnegative f Hf)) as H0.
    pose proof (share_le_piece pv f Hpv Hf) as H1.
    simpl length. rewrite Nat2Z.inj_succ, <- Z.add_1_r, inject_Z_plus.
    change (inject_Z 1) with 1%Q. split; [lra|].
    rewrite Qmult_plus_distr_l. lra.
Qed.

Lemma piece_times_length (N : nat) :
  (inject_Z (Z.of_nat N) * (1 / inject_Z (Z.of_nat N)) <= 1)%Q.
Proof.
  destruct N as [|N].
  - change (0 * (1 / 0) <= 1)%Q. lra.
  - assert (H : ¬ (inject_Z (Z.of_nat (S N)) == 0)%Q).
    { change 0%Q with (inject_Z 0). rewrite inject_Z_injective. lia. }
    assert (E : (inject_Z (Z.of_nat (S N)) * (1 / inject_Z (Z.of_nat (S N)))
                 == 1)%Q) by (field; exact H).
    rewrite E. apply Qle_refl.
Qed.

(** For records that keep the invariant of the data model the clamp of
    [getProgress] does nothing: the result is the sum of the shares as the
    reduction left it. *)
Theorem getProgress_unclamped (files : list FileMeta) :
  Forall well_formed files →
  getProgress files = percentageProgress files.
Proof.
  intros Hwf.
  destruct (percentageProgress_sum files) as (s & Hs & Hsum).
  destruct (Qsum_share_bounds _ files (piece_nonneg (length files)) Hwf)
    as [H0 H1].
  pose proof (piece_times_length (length files)) as H2.
  assert (Hs0 : (0 <= s)%Q) by (rewrite Hsum; exact H0).
  assert (Hs1 : (s <= 1)%Q) by (rewrite Hsum; lra).
  unfold getProgress. rewrite Hs. apply clamp_Num_id; lra.
Qed.

Lemma getProgress_unclamped_witness :
  Forall well_formed [fileA; fileB_done]
  ∧ getProgress [fileA; fileB_done] = percentageProgress [fileA; fileB_done].
Proof.
  assert (H : Forall well_formed [fileA; fileB_done]).
  { repeat constructor; simpl; try lia; intros t [= <-]; lia. }
  split; [exact H|].
  exact (getProgress_unclamped [fileA; fileB_done] H).
Defined.

Lemma share_not_started (pv : Q) (f : FileMeta) :
  started f = false → share pv f = 0%Q.
Proof.
  unfold started, share. intros H.
  apply orb_false_iff in H as [-> H].
  destruct (bytesDownloaded f =? 0)%Z; [reflexivity|].
  destruct (not_bytesTotal f); [reflexivity | discriminate].
Qed.

Lemma share_started (pv : Q) (f : FileMeta) :
  (0 < pv)%Q → nonnegative f → started f = true → (0 < share pv f)%Q.
Proof.
  intros Hpv [H0 Ht]. unfold started, share, not_bytesTotal.
  destruct (done f); [intros _; exact Hpv|]. simpl.
  destruct (bytesTotal f) as [t|]; [|rewrite andb_false_r; discriminate].
  destruct (Z.eqb_spec (bytesDownloaded f) 0); [discriminate|].
  destruct (Z.eqb_spec t 0) as [|Hne]; [discriminate|]. intros _. simpl.
  specialize (Ht t eq_refl).
  apply Qmult_lt_0_compat; [|exact Hpv].
  apply Qlt_shift_div_l.
  - change 0%Q with (inject_Z 0). rewrite <- Zlt_Qlt. lia.
  - rewrite Qmult_0_l. change 0%Q with (inject_Z 0). rewrite <- Zlt_Qlt. lia.
Qed.

Lemma Qsum_share_nonneg (pv : Q) (files : list FileMeta) :
  (0 <= pv)%Q → Forall nonnegative files →
  (0 <= Qsum (share pv <$> files))%Q.
Proof.
  intros Hpv Hnn. induction Hnn as [|g files Hg _ IH]; [apply Qle_refl|].
  change (Qsum (share pv <$> g :: files))
    with (share pv g + Qsum (share pv <$> files))%Q.
  pose proof (share_nonneg pv g Hpv Hg). lra.
Qed.

Lemma Qsum_share_positive (pv : Q) (files : list FileMeta) :
  (0 < pv)%Q → Forall nonnegative files →
  (0 < Qsum (share pv <$> files))%Q ↔ Exists (λ f, started f = true) files.
Proof.
  intros Hpv Hnn. induction Hnn as [|f files Hf Hnn IH].
  - split; [intros H; inversion H | intros H; inversion H].
  - change (Qsum (share pv <$> f :: files))
      with (share pv f + Qsum (share pv <$> files))%Q.
    pose proof (Qsum_share_nonneg pv files (Qlt_le_weak _ _ Hpv) Hnn) as Hrest.
    rewrite Exists_cons, <- IH.
    destruct (started f) eqn:Hs.
    + pose proof (share_started pv f Hpv Hf Hs). split; [auto | intros _; lra].
    + rewrite (share_not_started pv f Hs). split.
      * intros H. right. lra.
      * intros [H|H]; [discriminate | lra].
Qed.

Lemma clamp_Num_truthy (s : Q) :
  (0 <= s)%Q →
  JS.truthy (JS.max (JS.Num 0) (JS.min (JS.Num s) (JS.Num 100))) = true
  ↔ (0 < s)%Q.
Proof.
  intros H0. simpl.
  destruct (Qle_bool s 100) eqn:H1.
  - apply Qle_bool_iff in H0. rewrite H0.
    rewrite negb_true_iff, <- not_true_iff_false, Qeq_bool_iff.
    apply Qle_bool_iff in H0. split; intros H.
    + apply Qle_lt_or_eq in H0 as [H0|H0]; [exact H0|].
      destruct H. symmetry. exact H0.
    + intros E. rewrite E in H. inversion H.
  - apply Qle_bool_false in H1. split; [intros _; lra | reflexivity].
Qed.

Lemma truthy_getProgress_started (files : list FileMeta) :
  Forall nonnegative files →
  JS.truthy (getProgress files) = true
  ↔ Exists (λ f, started f = true) files.
Proof.
  intros Hnn. destruct files as [|f0 files].
  - split; [discriminate | intros H; inversion H].
  - set (all := f0 :: files) in *.
    assert (Hpv : (0 < 1 / inject_Z (Z.of_nat (length all)))%Q).
    { apply Qlt_shift_div_l.
      - change 0%Q with (inject_Z 0). rewrite <- Zlt_Qlt. simpl. lia.
      - rewrite Qmult_0_l. reflexivity. }
    destruct (percentageProgress_sum all) as (s & Hs & Hsum).
    unfold getProgress. rewrite Hs.
    rewrite <- (Qsum_share_positive _ all Hpv Hnn), <- Hsum.
    apply clamp_Num_truthy.
    rewrite Hsum. apply Qsum_share_nonneg; [apply Qlt_le_weak, Hpv | exact Hnn].
Qed.

(** For records with byte counts that are not negative, [getProgress] is
    different from zero exactly when some file is done or has bytes of a
    size that is known and not zero. *)
Theorem getProgress_truthy (files : list FileMeta) :
  Forall nonnegative files →
  JS.truthy (getProgress files) = true
  ↔ Exists (λ f, started f = true) files.
Proof. apply truthy_getProgress_started. Qed.

Lemma getProgress_truthy_witness :
  Forall nonnegative [fileA; fileB]
  ∧ (JS.truthy (getProgress [fileA; fileB]) = true
     ↔ Exists (λ f, started f = true) [fileA; fileB]).
Proof.
  assert (H : Forall nonnegative [fileA; fileB]) by solve_files.
  split; [exact H|].
  exact (getProgress_truthy [fileA; fileB] H).
Defined.

(** ** The resume merge *)


(** The working set, as the lookup through the prototype chain builds
    it: it has the length and the order of the fresh list; a persisted
    record replaces the fresh entry with its URL; without one the fresh
    entry stays unless its URL is a name of [Object.prototype], and then
    the inherited member takes its place; no record for a URL the fresh
    list does not name is in it. *)
Theorem working_set_entries (files dbFiles : list FileMeta) :
  let workingSet := Prototype.filesWithStateUpdatedFromDb files dbFiles in
  length workingSet = length files
  ∧ (∀ i fresh, files !! i = Some fresh →
       (∀ p, NoDup (url <$> dbFiles) → p ∈ dbFiles → url p = url fresh →
          workingSet !! i = Some (Prototype.Meta p))
       ∧ ((∀ p, p ∈ dbFiles → url p ≠ url fresh) →
          url fresh ∉ Prototype.Object_prototype →
          workingSet !! i = Some (Prototype.Meta fresh))
       ∧ ((∀ p, p ∈ dbFiles → url p ≠ url fresh) →
          url fresh ∈ Prototype.Object_prototype →
          workingSet !! i = Some (Prototype.Inherited (url fresh))))
  ∧ (∀ p, p ∈ dbFiles → url p ∉ url <$> files →
       Prototype.Meta p ∉ workingSet).
Proof.
  intros workingSet. split; [|split].
  - apply length_fmap.
  - intros i fresh Hi. unfold workingSet.
    rewrite Prototype_lookup, Hi. simpl. split; [|split].
    + intros p Hnd Hp Hu. rewrite <- Hu, persisted_unique by assumption.
      reflexivity.
    + intros Hnone Hown. apply persisted_None in Hnone. rewrite Hnone.
      rewrite bool_decide_eq_false_2 by exact Hown. reflexivity.
    + intros Hnone Hin. apply persisted_None in Hnone. rewrite Hnone.
      rewrite bool_decide_eq_true_2 by exact Hin. reflexivity.
  - intros p _ Hu Hp. apply Hu.
    apply list_elem_of_lookup_1 in Hp as [i Hi]. unfold workingSet in Hi.
    rewrite Prototype_lookup in Hi.
    destruct (files !! i) as [fresh|] eqn:Hf; [|discriminate].
    simpl in Hi. apply list_elem_of_lookup_2 in Hf.
    destruct (persisted (url fresh) dbFiles) as [q|] eqn:Hq.
    + injection Hi as ->. apply persisted_Some in Hq as [_ ->].
      apply list_elem_of_fmap_2. exact Hf.
    + destruct (bool_decide _); [discriminate|].
      injection Hi as ->. apply list_elem_of_fmap_2. exact Hf.
Qed.

Lemma working_set_entries_witness :
  Prototype.filesWithStateUpdatedFromDb fresh_files db_files !! 0%nat
    = Some (Prototype.Meta fileA)
  ∧ Prototype.filesWithStateUpdatedFromDb fresh_files db_files !! 1%nat
    = Some (Prototype.Meta fileB)
  ∧ Prototype.Meta stale
    ∉ Prototype.filesWithStateUpdatedFromDb fresh_files db_files.
Proof.
  destruct (working_set_entries fresh_files db_files) as (_ & Hpos & Hdrop).
  split; [|split].
  - apply (Hpos 0%nat (freshStub "a") eq_refl); [compute_done | left | reflexivity].
  - apply (Hpos 1%nat (freshStub "b") eq_refl); [|compute_done].
    intros p Hp Hu.
    apply elem_of_cons in Hp as [->|Hp]; [discriminate|].
    apply elem_of_cons in Hp as [->|Hp]; [discriminate|].
    inversion Hp.
  - apply Hdrop; [right; left | compute_done].
Defined.

(** Every entry of the working set is a record with the URL of the fresh
    entry at its position, or the member of [Object.prototype] that this
    URL names and the database has no record for; so when no fresh URL is
    such a name the working set names the URLs of the fresh list, in its
    order. *)
Theorem working_set_urls (files dbFiles : list FileMeta) :
  (∀ i fresh, files !! i = Some fresh →
     ∃ e, Prototype.filesWithStateUpdatedFromDb files dbFiles !! i = Some e
          ∧ (Prototype.entry_url e = Some (url fresh)
             ∨ (e = Prototype.Inherited (url fresh)
                ∧ url fresh ∈ Prototype.Object_prototype
                ∧ url fresh ∉ url <$> dbFiles)))
  ∧ (Forall (λ f, url f ∉ Prototype.Object_prototype) files →
     Prototype.entry_url <$> Prototype.filesWithStateUpdatedFromDb files dbFiles
     = (λ f, Some (url f)) <$> files).
Proof.
  split.
  - intros i fresh Hi. rewrite Prototype_lookup, Hi. simpl.
    destruct (persisted (url fresh) dbFiles) as [p|] eqn:Hp.
    + exists (Prototype.Meta p). split; [reflexivity|]. left. simpl.
      apply persisted_Some in Hp as [_ ->]. reflexivity.
    + destruct (bool_decide (url fresh ∈ Prototype.Object_prototype)) eqn:Hb.
      * eexists. split; [reflexivity|]. right.
        apply bool_decide_eq_true_1 in Hb. split; [reflexivity|].
        split; [exact Hb|].
        intros Hin. apply list_elem_of_fmap in Hin as (q & Hu & Hq).
        rewrite persisted_None in Hp. exact (Hp q Hq (eq_sym Hu)).
      * eexists. split; [reflexivity|]. left. reflexivity.
  - intros Hown. rewrite Prototype_own_keys by exact Hown.
    transitivity (Some <$> (url <$> filesWithStateUpdatedFromDb files dbFiles)).
    + rewrite <- !list_fmap_compose. reflexivity.
    + rewrite filesWithStateUpdatedFromDb_url, <- list_fmap_compose.
      reflexivity.
Qed.

Lemma working_set_urls_witness :
  Prototype.entry_url
    <$> Prototype.filesWithStateUpdatedFromDb fresh_files db_files
  = [Some "a"; Some "b"].
Proof.
  destruct (working_set_urls fresh_files db_files) as [_ H].
  rewrite H; [reflexivity | compute_done].
Defined.

(** When no fresh URL is a name of [Object.prototype], merging the working
    set with the same database records again changes nothing. *)
Theorem working_set_merge_again (files dbFiles : list FileMeta) :
  Forall (λ f, url f ∉ Prototype.Object_prototype) files →
  ∃ workingSet,
    Prototype.filesWithStateUpdatedFromDb files dbFiles
    = Prototype.Meta <$> workingSet
    ∧ Prototype.filesWithStateUpdatedFromDb workingSet dbFiles
      = Prototype.Meta <$> workingSet.
Proof.
  intros Hown. exists (filesWithStateUpdatedFromDb files dbFiles).
  split; [apply Prototype_own_keys, Hown|].
  assert (Hown' : Forall (λ f, url f ∉ Prototype.Object_prototype)
                    (filesWithStateUpdatedFromDb files dbFiles)).
  { apply Forall_forall. intros w Hw.
    apply (list_elem_of_fmap_2 url) in Hw.
    rewrite filesWithStateUpdatedFromDb_url in Hw.
    apply list_elem_of_fmap in Hw as (f & -> & Hf).
    rewrite Forall_forall in Hown. auto. }
  rewrite Prototype_own_keys by exact Hown'. f_equal.
  unfold filesWithStateUpdatedFromDb at 1 2. rewrite <- list_fmap_compose.
  apply list_fmap_ext. intros i fresh _. simpl.
  destruct (dbFilesByUrl dbFiles !! url fresh) as [p|] eqn:E.
  - pose proof E as E'. rewrite dbFilesByUrl_lookup in E'.
    apply persisted_Some in E' as [_ Hu]. rewrite Hu, E. reflexivity.
  - rewrite E. reflexivity.
Qed.

Lemma working_set_merge_again_witness :
  Forall (λ f, url f ∉ Prototype.Object_prototype) fresh_files
  ∧ ∃ workingSet,
      Prototype.filesWithStateUpdatedFromDb fresh_files db_files
      = Prototype.Meta <$> workingSet
      ∧ Prototype.filesWithStateUpdatedFromDb workingSet db_files
        = Prototype.Meta <$> workingSet.
Proof.
  assert (H : Forall (λ f, url f ∉ Prototype.Object_prototype) fresh_files)
    by compute_done.
  split; [exact H|].
  exact (working_set_merge_again fresh_files db_files H).
Defined.

Lemma filesWithStateUpdatedFromDb_nil (files : list FileMeta) :
  filesWithStateUpdatedFromDb files [] = files.
Proof.
  unfold filesWithStateUpdatedFromDb.
  transitivity (id <$> files); [|apply list_fmap_id].
  apply list_fmap_ext. intros i f _. reflexivity.
Qed.

(** With an empty database the working set holds each fresh entry, or the
    member of [Object.prototype] its URL names; an empty fresh list gives an
    empty working set whatever the database holds. *)
Theorem working_set_empty (files dbFiles : list FileMeta) :
  Prototype.filesWithStateUpdatedFromDb files []
  = (λ fresh,
       if bool_decide (url fresh ∈ Prototype.Object_prototype)
       then Prototype.Inherited (url fresh)
       else Prototype.Meta fresh) <$> files
  ∧ Prototype.filesWithStateUpdatedFromDb [] dbFiles = [].
Proof.
  split; [|reflexivity].
  apply list_eq. intros i. rewrite Prototype_lookup, list_lookup_fmap.
  destruct (files !! i); reflexivity.
Qed.

Lemma persisted_filter (P : FileMeta → Prop) `{!∀ p, Decision (P p)}
    (u : string) (dbFiles : list FileMeta) :
  (∀ p, url p = u → P p) →
  persisted u (filter P dbFiles) = persisted u dbFiles.
Proof.
  intros HP. unfold persisted. f_equal.
  rewrite list_filter_filter. apply list_filter_iff.
  intros p. split; [tauto|]. intros Hu. split; [exact Hu | exact (HP p Hu)].
Qed.

(** The database records of files the resolver does not name have no
    effect on the working set. *)
Theorem working_set_ignores_stale (files dbFiles : list FileMeta) :
  filesWithStateUpdatedFromDb files
    (filter (λ p, url p ∈ url <$> files) dbFiles)
  = filesWithStateUpdatedFromDb files dbFiles.
Proof.
  unfold filesWithStateUpdatedFromDb.
  apply list_fmap_ext. intros i fresh Hi. simpl.
  rewrite !dbFilesByUrl_lookup, persisted_filter; [reflexivity|].
  intros p ->. apply list_elem_of_fmap_2.
  apply list_elem_of_lookup_2 in Hi. exact Hi.
Qed.

(** ** The component *)

Lemma Component_eq (c d : Component) :
  attributes c = attributes d → files c = files d → meta c = meta d →
  button_disabled c = button_disabled d →
  button_innerHTML c = button_innerHTML d → c = d.
Proof. destruct c, d. simpl. intros. subst. reflexivity. Qed.

Lemma clampedProgress_range (x : JS.number) :
  clampedProgress x = JS.NaN
  ∨ ∃ q, clampedProgress x = JS.Num q ∧ (0 <= q)%Q ∧ (q <= 100)%Q.
Proof.
  destruct x as [q| | |].
  - right. unfold clampedProgress. simpl. eexists. split; [reflexivity|].
    destruct (Qle_bool 0 q) eqn:H1.
    + destruct (Qle_bool q 100) eqn:H2.
      * apply Qle_bool_iff in H1, H2. auto.
      * split; [discriminate | apply Qle_refl].
    + change (Qle_bool 0 100) with true. cbv iota.
      split; [apply Qle_refl | discriminate].
  - right. exists 100%Q. split; [reflexivity|]. split; discriminate.
  - right. exists 0%Q. split; [reflexivity|]. split; discriminate.
  - left. reflexivity.
Qed.

Lemma clampedProgress_id (q : Q) :
  (0 <= q)%Q → (q <= 100)%Q → clampedProgress (JS.Num q) = JS.Num q.
Proof.
  intros H0 H1. unfold clampedProgress. simpl.
  apply Qle_bool_iff in H0, H1. rewrite H0, H1. reflexivity.
Qed.

Section Behaviour.

Variable number_toString : JS.number → string.
Variable parseFloat : string → JS.number.

Lemma get_progress_attributes (c d : Component) :
  attributes c !! "progress" = attributes d !! "progress" →
  get_progress number_toString parseFloat c
  = get_progress number_toString parseFloat d.
Proof. unfold get_progress, getAttribute. intros ->. reflexivity. Qed.

Lemma get_progress_range (this : Component) :
  get_progress number_toString parseFloat this = JS.NaN
  ∨ ∃ q, get_progress number_toString parseFloat this = JS.Num q
         ∧ (0 <= q)%Q ∧ (q <= 100)%Q.
Proof. unfold get_progress. apply clampedProgress_range. Qed.

Lemma set_state_attributes (state : string) (this : Component) :
  set_state number_toString state this
  = mkComponent (<["state" := state]> (attributes this)) (files this)
      (meta this) (button_disabled this) (button_innerHTML this).
Proof. reflexivity. Qed.

(** The attributes [setDownloadState] leaves behind. *)
Lemma setDownloadState_attributes (this : Component) :
  attributes (setDownloadState number_toString parseFloat this)
  = if VideoMeta.done_truthy (getMeta this) then
      <["state" := "done"]> (attributes this)
    else if JS.truthy (getProgress (files this)) then
      <["progress" :=
          number_toString
            (clampedProgress
               (parseFloat (number_toString (getProgress (files this)))))]>
        (<["state" := "partial"]> (attributes this))
    else <["state" := "ready"]> (attributes this).
Proof.
  unfold setDownloadState, getMeta. simpl.
  destruct (VideoMeta.done_truthy _); [reflexivity|].
  destruct (JS.truthy _); reflexivity.
Qed.

Lemma setDownloadState_fields (this : Component) :
  files (setDownloadState number_toString parseFloat this) = files this
  ∧ meta (setDownloadState number_toString parseFloat this) = meta this
  ∧ button_disabled (setDownloadState number_toString parseFloat this) = false
  ∧ button_innerHTML (setDownloadState number_toString parseFloat this)
    = if negb (VideoMeta.done_truthy (getMeta this))
         && JS.truthy (getProgress (files this))
      then "Resume Download" else button_innerHTML this.
Proof.
  unfold setDownloadState, getMeta. simpl.
  destruct (VideoMeta.done_truthy _); [repeat split|].
  destruct (JS.truthy _); repeat split.
Qed.

Lemma init_fields (fresh dbFiles : list FileMeta) (dbMeta : option VideoMeta.t)
    (this : Component) :
  init number_toString parseFloat fresh dbFiles dbMeta this
  = setDownloadState number_toString parseFloat
      (mkComponent (attributes this)
         (filesWithStateUpdatedFromDb fresh dbFiles) dbMeta
         false "Download for Offline playback").
Proof. reflexivity. Qed.

Lemma connectedCallback_cases (this : Component) :
  (∃ c s, get_state this = Some (String c s)
          ∧ connectedCallback number_toString this = this)
  ∨ ((get_state this = None ∨ get_state this = Some "")
     ∧ connectedCallback number_toString this
       = set_state number_toString "not-initialized" this).
Proof.
  unfold connectedCallback. destruct (get_state this) as [[|c s]|]; eauto.
Qed.

Lemma onprogress_attributes (progress : value) (this : Component) :
  onprogress number_toString parseFloat progress this
  = set_progress number_toString parseFloat progress this.
Proof. reflexivity. Qed.

Lemma ondone_attributes (this : Component) :
  ondone number_toString parseFloat this
  = set_state number_toString "done"
      (set_progress number_toString parseFloat (VNumber (JS.Num 100)) this).
Proof. reflexivity. Qed.

Lemma runIDBDownloads_attributes (this : Component) :
  runIDBDownloads number_toString this
  = set_state number_toString "partial" this.
Proof. reflexivity. Qed.

End Behaviour.

Lemma getProgress_clamped (files : list FileMeta) :
  ∃ q, getProgress files = JS.Num q ∧ (0 <= q)%Q ∧ (q <= 100)%Q.
Proof.
  unfold getProgress. rewrite percentageProgress_Num. apply clamp_Num_range.
Qed.

Lemma stubs_not_started (urls : list string) :
  Forall nonnegative (freshStub <$> urls)
  ∧ ¬ Exists (λ f, started f = true) (freshStub <$> urls).
Proof.
  induction urls as [|u urls [IH1 IH2]].
  - split; [constructor | intros H; inversion H].
  - rewrite fmap_cons. split.
    + constructor; [|exact IH1]. split; [simpl; lia | intros t [=]].
    + rewrite Exists_cons. intros [H|H]; [discriminate | auto].
Qed.

Section ComponentProperties.

Variable number_toString : JS.number → string.
Variable parseFloat : string → JS.number.

Local Abbreviation set_state := (set_state number_toString).
Local Abbreviation get_progress := (get_progress number_toString parseFloat).
Local Abbreviation set_progress := (set_progress number_toString parseFloat).
Local Abbreviation setDownloadState :=
  (setDownloadState number_toString parseFloat).
Local Abbreviation init := (init number_toString parseFloat).
Local Abbreviation connectedCallback := (connectedCallback number_toString).
Local Abbreviation onprogress := (onprogress number_toString parseFloat).
Local Abbreviation ondone := (ondone number_toString parseFloat).
Local Abbreviation runIDBDownloads := (runIDBDownloads number_toString).

(** Whatever the [progress] attribute holds, and however [parseFloat] reads
    it, the getter returns NaN or a number between 0 and 100. *)
Theorem progress_getter_range (this : Component) :
  get_progress this = JS.NaN
  ∨ ∃ q, get_progress this = JS.Num q ∧ (0 <= q)%Q ∧ (q <= 100)%Q.
Proof. apply get_progress_range. Qed.

(** The two reflected attributes do not interfere: the state setter is read
    back by the state getter and leaves the progress alone, the progress
    setter leaves the state alone, and neither touches another attribute. *)
Theorem reflected_attributes_independent
    (state : string) (v : value) (this : Component) :
  get_state (set_state state this) = Some state
  ∧ get_progress (set_state state this) = get_progress this
  ∧ get_state (set_progress v this) = get_state this
  ∧ ∀ name, name ≠ "state" → name ≠ "progress" →
      getAttribute name (set_state state this) = getAttribute name this
      ∧ getAttribute name (set_progress v this) = getAttribute name this.
Proof.
  split; [|split; [|split]].
  - rewrite set_state_attributes. apply lookup_insert_eq.
  - apply get_progress_attributes. rewrite set_state_attributes. simpl.
    apply lookup_insert_ne. discriminate.
  - rewrite set_progress_attributes. apply lookup_insert_ne. discriminate.
  - intros name Hs Hp. split.
    + rewrite set_state_attributes. apply lookup_insert_ne. congruence.
    + rewrite set_progress_attributes. apply lookup_insert_ne. congruence.
Qed.

Lemma setDownloadState_get_state (this : Component) :
  (VideoMeta.done_truthy (getMeta this) = true →
     get_state (setDownloadState this) = Some "done")
  ∧ (VideoMeta.done_truthy (getMeta this) = false →
     Forall nonnegative (files this) →
     (Exists (λ f, started f = true) (files this) →
        get_state (setDownloadState this) = Some "partial")
     ∧ (¬ Exists (λ f, started f = true) (files this) →
        get_state (setDownloadState this) = Some "ready")).
Proof.
  unfold get_state, getAttribute. rewrite setDownloadState_attributes.
  split.
  - intros ->. apply lookup_insert_eq.
  - intros -> Hnn.
    pose proof (truthy_getProgress_started (files this) Hnn) as Ht.
    split; intros Hs.
    + apply Ht in Hs. rewrite Hs.
      rewrite lookup_insert_ne by discriminate. apply lookup_insert_eq.
    + destruct (JS.truthy (getProgress (files this))).
      * destruct Hs. apply Ht. reflexivity.
      * apply lookup_insert_eq.
Qed.

(** [setDownloadState] decides the state from the record of the video and
    from the files: "done" when the record says so; otherwise, for byte
    counts that are not negative, "partial" when some file is done or has
    bytes of a known size, and "ready" when none has. *)
Theorem setDownloadState_state (this : Component) :
  (VideoMeta.done_truthy (getMeta this) = true →
     get_state (setDownloadState this) = Some "done")
  ∧ (VideoMeta.done_truthy (getMeta this) = false →
     Forall nonnegative (files this) →
     (Exists (λ f, started f = true) (files this) →
        get_state (setDownloadState this) = Some "partial")
     ∧ (¬ Exists (λ f, started f = true) (files this) →
        get_state (setDownloadState this) = Some "ready")).
Proof. apply setDownloadState_get_state. Qed.

(** [setDownloadState] enables the button and keeps the files, the record
    of the video and every attribute but [state] and [progress]; unless the
    state becomes "partial" it also keeps the [progress] attribute and the
    label of the button. *)
Theorem setDownloadState_frame (this : Component) :
  files (setDownloadState this) = files this
  ∧ meta (setDownloadState this) = meta this
  ∧ button_disabled (setDownloadState this) = false
  ∧ (∀ name, name ≠ "state" → name ≠ "progress" →
       getAttribute name (setDownloadState this) = getAttribute name this)
  ∧ (get_state (setDownloadState this) ≠ Some "partial" →
       getAttribute "progress" (setDownloadState this)
       = getAttribute "progress" this
       ∧ button_innerHTML (setDownloadState this) = button_innerHTML this).
Proof.
  destruct (setDownloadState_fields number_toString parseFloat this)
    as (Hf & Hm & Hb & Hl).
  split; [exact Hf|]. split; [exact Hm|]. split; [exact Hb|].
  unfold get_state, getAttribute. rewrite Hl, setDownloadState_attributes.
  split.
  - intros name Hs Hp.
    destruct (VideoMeta.done_truthy _);
      [|destruct (JS.truthy _)];
      rewrite ?lookup_insert_ne by congruence; reflexivity.
  - destruct (VideoMeta.done_truthy _); simpl.
    + intros _. rewrite lookup_insert_ne by discriminate. auto.
    + destruct (JS.truthy _).
      * rewrite lookup_insert_ne by discriminate.
        rewrite lookup_insert_eq. intros H. destruct H. reflexivity.
      * intros _. rewrite lookup_insert_ne by discriminate. auto.
Qed.

(** Calling [setDownloadState] again changes nothing. *)
Theorem setDownloadState_idempotent (this : Component) :
  setDownloadState (setDownloadState this) = setDownloadState this.
Proof.
  destruct (setDownloadState_fields number_toString parseFloat this)
    as (Hf & Hm & Hb & Hl).
  destruct (setDownloadState_fields number_toString parseFloat
              (setDownloadState this)) as (Hf' & Hm' & Hb' & Hl').
  assert (Hmeta : getMeta (setDownloadState this) = getMeta this)
    by (unfold getMeta; rewrite Hm; reflexivity).
  apply Component_eq.
  - rewrite (setDownloadState_attributes _ _ (setDownloadState this)).
    rewrite Hmeta, Hf, setDownloadState_attributes.
    destruct (VideoMeta.done_truthy _); [apply insert_insert_eq|].
    destruct (JS.truthy _); [|apply insert_insert_eq].
    apply map_eq. intros name.
    destruct (decide (name = "progress")) as [->|Hp].
    + rewrite !lookup_insert_eq. reflexivity.
    + rewrite !(lookup_insert_ne _ "progress") by congruence.
      destruct (decide (name = "state")) as [->|Hs].
      * rewrite !lookup_insert_eq. reflexivity.
      * rewrite !(lookup_insert_ne _ "state") by congruence.
        rewrite !(lookup_insert_ne _ "progress") by congruence.
        rewrite !(lookup_insert_ne _ "state") by congruence. reflexivity.
  - rewrite Hf'. reflexivity.
  - rewrite Hm'. reflexivity.
  - rewrite Hb', Hb. reflexivity.
  - rewrite Hl', Hmeta, Hf, Hl.
    destruct (negb _ && _); reflexivity.
Qed.

(** A start without a record of the video and without database records,
    on the stubs of the resolver: the component is "ready". *)
Theorem init_fresh (urls : list string) (this : Component) :
  get_state (init (freshStub <$> urls) [] None this) = Some "ready".
Proof.
  rewrite init_fields, filesWithStateUpdatedFromDb_nil.
  destruct (stubs_not_started urls) as [Hnn Hnone].
  unfold get_state, getAttribute. rewrite setDownloadState_attributes. simpl.
  destruct (JS.truthy (getProgress (freshStub <$> urls))) eqn:E.
  - destruct Hnone. apply truthy_getProgress_started; assumption.
  - apply lookup_insert_eq.
Qed.


(** After [connectedCallback] the [state] attribute is there and not empty;
    a state that was there is kept, a second call changes nothing, and no
    other attribute is touched. *)
Theorem connectedCallback_state (this : Component) :
  (∃ c s, get_state (connectedCallback this) = Some (String c s))
  ∧ (∀ c s, get_state this = Some (String c s) →
       connectedCallback this = this)
  ∧ connectedCallback (connectedCallback this) = connectedCallback this
  ∧ ∀ name, name ≠ "state" →
      getAttribute name (connectedCallback this) = getAttribute name this.
Proof.
  destruct (connectedCallback_cases number_toString this)
    as [(c & s & Hs & ->) | [Hs ->]].
  - split; [eauto|]. split; [auto|].
    destruct (connectedCallback_cases number_toString this)
      as [(c' & s' & _ & H) | [[H|H] _]]; [|congruence|congruence].
    rewrite H. split; [reflexivity|]. reflexivity.
  - assert (Hst : get_state (set_state "not-initialized" this)
                  = Some "not-initialized").
    { rewrite set_state_attributes. apply lookup_insert_eq. }
    split; [eauto|]. split; [|split].
    + intros c s H. destruct Hs as [Hs|Hs]; congruence.
    + destruct (connectedCallback_cases number_toString
                  (set_state "not-initialized" this))
        as [(_ & _ & _ & H) | [[H|H] _]]; [exact H|congruence|congruence].
    + intros name Hn. rewrite set_state_attributes.
      apply lookup_insert_ne. congruence.
Qed.

Hypothesis parseFloat_toString : ∀ x, parseFloat (number_toString x) = x.

(** In the state "partial" the progress the getter returns is the value of
    [getProgress], unchanged by the two clamps on the way. *)
Theorem setDownloadState_progress (this : Component) :
  VideoMeta.done_truthy (getMeta this) = false →
  JS.truthy (getProgress (files this)) = true →
  get_state (setDownloadState this) = Some "partial"
  ∧ get_progress (setDownloadState this) = getProgress (files this).
Proof.
  intros Hmeta Htruthy.
  pose proof (setDownloadState_attributes number_toString parseFloat this)
    as Hattrs.
  rewrite Hmeta, Htruthy, parseFloat_toString in Hattrs. split.
  - unfold get_state, getAttribute. rewrite Hattrs.
    rewrite lookup_insert_ne by discriminate. apply lookup_insert_eq.
  - destruct (getProgress_clamped (files this)) as (q & Hq & H0 & H1).
    rewrite (get_progress_attribute number_toString parseFloat
               (number_toString (clampedProgress (getProgress (files this))))).
    + rewrite parseFloat_toString, Hq, !clampedProgress_id by assumption.
      reflexivity.
    + unfold getAttribute. rewrite Hattrs. apply lookup_insert_eq.
Qed.

Lemma foldl_onprogress_state (events : list value) (this : Component) :
  get_state (foldl (λ c progress, onprogress progress c) this events)
  = get_state this.
Proof.
  revert this. induction events as [|progress events IH]; intros this.
  - reflexivity.
  - simpl. rewrite IH, onprogress_attributes, set_progress_attributes.
    apply lookup_insert_ne. discriminate.
Qed.

(** A download: after [runIDBDownloads], however many progress events
    arrive and whatever they carry, the state stays "partial"; the done
    event then leaves the state "done" and the progress at 100. *)
Theorem download_session (events : list value) (this : Component) :
  let during :=
    foldl (λ c progress, onprogress progress c) (runIDBDownloads this) events in
  get_state during = Some "partial"
  ∧ get_state (ondone during) = Some "done"
  ∧ get_progress (ondone during) = JS.Num 100.
Proof.
  intros during. split; [|split].
  - unfold during. rewrite foldl_onprogress_state, runIDBDownloads_attributes.
    rewrite set_state_attributes. apply lookup_insert_eq.
  - rewrite ondone_attributes, set_state_attributes. apply lookup_insert_eq.
  - rewrite ondone_attributes.
    rewrite (get_progress_attributes number_toString parseFloat _
               (set_progress (VNumber (JS.Num 100)) during)).
    + rewrite (get_set_progress number_toString parseFloat parseFloat_toString).
      simpl. rewrite parseFloat_toString. reflexivity.
    + rewrite set_state_attributes. simpl.
      apply lookup_insert_ne. discriminate.
Qed.

End ComponentProperties.

Lemma reflected_attributes_independent_witness :
  getAttribute "lang" (set_state model_toString "done" downloading) = Some "en"
  ∧ getAttribute "lang"
      (set_progress model_toString model_parseFloat (VNumber (JS.Num 1))
         downloading)
    = Some "en".
Proof.
  destruct (reflected_attributes_independent model_toString model_parseFloat
              "done" (VNumber (JS.Num 1)) downloading) as (_ & _ & _ & H).
  destruct (H "lang") as [H1 H2]; [discriminate | discriminate |].
  rewrite H1, H2. split; reflexivity.
Defined.

Lemma setDownloadState_state_witness :
  get_state (setDownloadState model_toString model_parseFloat resumed)
  = Some "partial".
Proof.
  destruct (setDownloadState_state model_toString model_parseFloat resumed)
    as [_ H].
  destruct (H eq_refl) as [Hpartial _]; [solve_files|].
  apply Hpartial. left. reflexivity.
Defined.

Lemma setDownloadState_frame_witness :
  getAttribute "lang"
    (setDownloadState model_toString model_parseFloat downloading)
  = Some "en".
Proof.
  destruct (setDownloadState_frame model_toString model_parseFloat downloading)
    as (_ & _ & _ & H & _).
  rewrite (H "lang"); [reflexivity | discriminate | discriminate].
Defined.


Lemma connectedCallback_state_witness :
  connectedCallback model_toString downloading = downloading.
Proof.
  destruct (connectedCallback_state model_toString downloading)
    as (_ & H & _).
  apply (H "p"%char "artial"). reflexivity.
Defined.

Lemma setDownloadState_progress_witness :
  get_progress model_toString model_parseFloat
    (setDownloadState model_toString model_parseFloat resumed)
  = getProgress [fileA; fileB].
Proof.
  apply (setDownloadState_progress model_toString model_parseFloat
           model_parseFloat_toString resumed); reflexivity.
Defined.

Lemma download_session_witness :
  get_progress model_toString model_parseFloat
    (ondone model_toString model_parseFloat
       (foldl (λ c progress, onprogress model_toString model_parseFloat progress c)
          (runIDBDownloads model_toString resumed)
          [VNumber (JS.Num (1 # 4)); VNumber (JS.Num (1 # 2))]))
  = JS.Num 100.
Proof.
  apply (download_session model_toString model_parseFloat
           model_parseFloat_toString
           [VNumber (JS.Num (1 # 4)); VNumber (JS.Num (1 # 2))] resumed).
Defined.


(** ** The assets [download] caches *)

(** [download] hands to the cache the posters followed by the subtitles:
    for an array [thumbnail], the [src] of its objects in their order and
    then the [src] of the subtitles objects in theirs; for a [thumbnail]
    that is not an array, that value, whatever it is, and then the
    subtitles.  Nothing else is in the list. *)
Theorem download_cache_urls_members (apiData : ApiData) :
  (∀ thumbnails, thumbnail apiData = ThumbnailArray thumbnails →
     download_cache_urls apiData
     = (thumbnail_src <$> thumbnails)
       ++ (subtitles_src <$> default [] (video_subtitles apiData))
     ∧ ∀ u, u ∈ download_cache_urls apiData
            ↔ (∃ t, t ∈ thumbnails ∧ u = thumbnail_src t)
              ∨ (∃ sub, sub ∈ default [] (video_subtitles apiData)
                        ∧ u = subtitles_src sub))
  ∧ (∀ v, thumbnail apiData = ThumbnailOther v →
       download_cache_urls apiData
       = v :: (subtitles_src <$> default [] (video_subtitles apiData)))
  ∧ length (download_cache_urls apiData)
    = (length (getPosterURLs apiData)
       + length (default [] (video_subtitles apiData)))%nat.
Proof.
  unfold download_cache_urls, getPosterURLs, getSubtitlesUrls.
  split; [|split].
  - intros thumbnails ->. split; [reflexivity|]. intros u. split.
    + intros H. apply elem_of_app in H as [H|H];
        apply list_elem_of_fmap in H as (x & -> & Hx); eauto.
    + intros [(x & Hx & ->) | (x & Hx & ->)]; apply elem_of_app;
        [left | right]; apply list_elem_of_fmap_2; exact Hx.
  - intros v ->. reflexivity.
  - rewrite length_app, length_fmap. reflexivity.
Qed.

Lemma download_cache_urls_members_witness :
  download_cache_urls sample_apiData
  = [VString "p1"; VString "p2"; VString "s1"].
Proof.
  destruct (download_cache_urls_members sample_apiData) as (H & _ & _).
  destruct (H _ eq_refl) as [-> _]. reflexivity.
Defined.
